(** * Process scheduling simulator: a model of [pa2.c]

    The simulator keeps a table of processes, a ready queue, a fixed table
    of resources (each with an owner and a wait queue) and the process that
    runs in the current tick.  The C code links processes into queues through
    embedded list heads; here a process is named by a handle and a queue is
    the list of the handles linked into it, head first. *)

From Stdlib Require Import ZArith String.
From stdpp Require Import base option list gmap strings.

Local Open Scope Z_scope.

(** ** Data model *)

(** A handle stands for a [struct process *]. *)
Definition pid := nat.

(** Modelled from the spec: [process.h] is not part of the source; the spec
    lists the statuses READY, RUNNING, WAITING and EXITED, of which [pa2.c]
    names [PROCESS_WAIT] and [PROCESS_READY]. *)
Inductive process_status :=
  | PROCESS_READY
  | PROCESS_RUNNING
  | PROCESS_WAIT
  | PROCESS_EXIT.

#[global] Instance process_status_eq_dec : EqDecision process_status.
Proof. solve_decision. Defined.

(** The fields of [struct process] that [pa2.c] reads or writes, under the
    names it uses for them.  The unsigned counters are kept as their values
    in [Z]; the code only compares and copies them.  [lock] is the resource
    behind [p->lock]. *)
Record process := mkProcess {
  status : process_status;
  age : Z;
  lifespan : Z;
  expected_exec_time : Z;
  remaining_exec_time : Z;
  priority : Z;
  orig_priority : Z;
  lock : nat
}.

(** [struct resource] as [pa2.c] uses it: the owner (or NULL) and the wait
    queue.  Modelled from the spec: the struct behind [p->lock] is declared
    nowhere in the source; the spec keeps the ceiling in the resource
    record, so [ceiling] is the field [pcp_acquire] reads through
    [p->lock->ceiling]. *)
Record resource := mkResource {
  owner : option pid;
  waitqueue : list pid;
  ceiling : Z
}.

(** The globals of the simulation: the process memory, [current],
    [readyqueue] and [resources]. *)
Record sim := mkSim {
  procs : gmap nat process;
  current : option pid;
  readyqueue : list pid;
  resources : list resource
}.

Definition set_status (v : process_status) (p : process) : process :=
  mkProcess v (age p) (lifespan p) (expected_exec_time p)
            (remaining_exec_time p) (priority p) (orig_priority p) (lock p).

Definition set_priority (v : Z) (p : process) : process :=
  mkProcess (status p) (age p) (lifespan p) (expected_exec_time p)
            (remaining_exec_time p) v (orig_priority p) (lock p).

Definition set_owner (v : option pid) (r : resource) : resource :=
  mkResource v (waitqueue r) (ceiling r).

Definition set_waitqueue (v : list pid) (r : resource) : resource :=
  mkResource (owner r) v (ceiling r).

Definition set_procs (v : gmap nat process) (s : sim) : sim :=
  mkSim v (current s) (readyqueue s) (resources s).

Definition set_readyqueue (v : list pid) (s : sim) : sim :=
  mkSim (procs s) (current s) v (resources s).

Definition set_resources (v : list resource) (s : sim) : sim :=
  mkSim (procs s) (current s) (readyqueue s) v.

(** ** Outcomes

    A call either returns, stops at a failed [assert], dereferences
    something that is not there (a NULL or dangling pointer, an index outside
    [resources]), or links a list node that is still linked in a list: the
    node's old neighbours keep pointing at it, the list it was in can no
    longer be walked back to its head, and no state of this model, where
    every queue is a list, stands for the outcome. *)
Inductive result (A : Type) : Type :=
  | Ok (a : A)
  | AssertFail
  | Fault
  | BrokenList.
Arguments Ok {A} a.
Arguments AssertFail {A}.
Arguments Fault {A}.
Arguments BrokenList {A}.

#[global] Instance result_ret : MRet result := fun A a => Ok a.
#[global] Instance result_bind : MBind result := fun A B f m =>
  match m with
  | Ok a => f a
  | AssertFail => AssertFail
  | Fault => Fault
  | BrokenList => BrokenList
  end.

Definition deref {A : Type} (o : option A) : result A :=
  match o with
  | Some a => Ok a
  | None => Fault
  end.

Definition assert (b : bool) : result unit :=
  if b then Ok tt else AssertFail.

(** [*p] for a process pointer. *)
Definition proc_at (p : pid) (s : sim) : result process :=
  deref (procs s !! p).

(** [resources + resource_id], with [resource_id] an [int]. *)
Definition resource_at (resource_id : Z) (s : sim) : result resource :=
  if decide (0 <= resource_id)
  then deref (resources s !! Z.to_nat resource_id)
  else Fault.

Definition store_proc (p : pid) (v : process) (s : sim) : sim :=
  set_procs (<[p := v]> (procs s)) s.

Definition store_resource (resource_id : Z) (v : resource) (s : sim) : sim :=
  set_resources (<[Z.to_nat resource_id := v]> (resources s)) s.

(** ** Queue membership *)

(** Every queue entry of the simulation: the ready queue followed by the
    wait queues of all resources.  A process has one embedded list node, so
    the processes in this list are the ones whose node is linked. *)
Definition queued (s : sim) : list pid :=
  readyqueue s ++ mjoin (waitqueue <$> resources s).

(** ** Default FCFS resource acquisition and release *)

(** The blocking branch calls [list_add_tail(&current->list, ...)] without
    unlinking [current] first.  For a [current] that is in no queue this
    appends it to the wait queue; for a [current] whose node is still linked
    it breaks the list the node was in. *)
Definition fcfs_acquire (resource_id : Z) (s : sim) : result (bool * sim) :=
  r ← resource_at resource_id s;
  match owner r with
  | None =>
      (* not owned by any one: take it *)
      Ok (true, store_resource resource_id (set_owner (current s) r) s)
  | Some _ =>
      c ← deref (current s);
      pc ← proc_at c s;
      let s1 := store_proc c (set_status PROCESS_WAIT pc) s in
      if bool_decide (c ∈ queued s) then BrokenList
      else
        Ok (false,
            store_resource resource_id
              (set_waitqueue (waitqueue r ++ [c]) r) s1)
  end.

Definition fcfs_release (resource_id : Z) (s : sim) : result sim :=
  r ← resource_at resource_id s;
  _ ← assert (bool_decide (owner r = current s));
  let r1 := set_owner None r in
  match waitqueue r1 with
  | [] => Ok (store_resource resource_id r1 s)
  | waiter :: rest =>
      pw ← proc_at waiter s;
      _ ← assert (bool_decide (status pw = PROCESS_WAIT));
      let s1 := store_resource resource_id (set_waitqueue rest r1) s in
      let s2 := store_proc waiter (set_status PROCESS_READY pw) s1 in
      Ok (set_readyqueue (readyqueue s2 ++ [waiter]) s2)
  end.

(** ** FIFO scheduler *)

Definition fifo_initialize (s : sim) : result (Z * sim) := Ok (0, s).

Definition fifo_finalize (s : sim) : result sim := Ok s.

(** The [pick_next] label of [fifo_schedule]: detach and return the first
    process of the ready queue, or NULL when the queue is empty. *)
Definition pick_next (s : sim) : option pid * sim :=
  match readyqueue s with
  | [] => (None, s)
  | next :: rest => (Some next, set_readyqueue rest s)
  end.

(** [dump_status()] only prints and is left out. *)
Definition fifo_schedule (s : sim) : result (option pid * sim) :=
  match current s with
  | None => Ok (pick_next s)
  | Some c =>
      pc ← proc_at c s;
      if bool_decide (status pc = PROCESS_WAIT) then Ok (pick_next s)
      else if age pc <? lifespan pc then Ok (Some c, s)
      else Ok (pick_next s)
  end.

(** ** The run queue of the scanning policies *)

(** Modelled from the spec: [runqueue] (with its link [run_list]) is named by
    [sjf_schedule], [srtf_schedule], [rr_schedule] and the priority policies
    but declared nowhere in [pa2.c]; the spec calls the queue these policies
    scan and rotate the ready queue, so it is the ready queue here. *)
Definition runqueue (s : sim) : list pid := readyqueue s.

Definition set_runqueue (v : list pid) (s : sim) : sim := set_readyqueue v s.

(** [ULONG_MAX] of an LP64 target. *)
Definition ULONG_MAX : Z := 18446744073709551615.

(** ** SJF scheduler *)

(** The body of [list_for_each_entry] in [sjf_schedule], with the locals
    [shortest] and [min_exec_time] as accumulators. *)
Fixpoint sjf_scan (m : gmap nat process) (q : list pid)
    (shortest : option pid) (min_exec_time : Z) : result (option pid) :=
  match q with
  | [] => Ok shortest
  | curr :: rest =>
      pc ← deref (m !! curr);
      if expected_exec_time pc <? min_exec_time
      then sjf_scan m rest (Some curr) (expected_exec_time pc)
      else sjf_scan m rest shortest min_exec_time
  end.

Definition sjf_schedule (s : sim) : result (option pid * sim) :=
  shortest ← sjf_scan (procs s) (runqueue s) None ULONG_MAX;
  Ok (shortest, s).

(** ** SRTF scheduler *)

Fixpoint srtf_scan (m : gmap nat process) (q : list pid)
    (shortest : option pid) (min_remain_time : Z) : result (option pid) :=
  match q with
  | [] => Ok shortest
  | curr :: rest =>
      pc ← deref (m !! curr);
      if remaining_exec_time pc <? min_remain_time
      then srtf_scan m rest (Some curr) (remaining_exec_time pc)
      else srtf_scan m rest shortest min_remain_time
  end.

Definition srtf_schedule (s : sim) : result (option pid * sim) :=
  shortest ← srtf_scan (procs s) (runqueue s) None ULONG_MAX;
  Ok (shortest, s).

(** ** Round-robin scheduler *)

Definition rr_schedule (s : sim) : result (option pid * sim) :=
  match runqueue s with
  | [] => Ok (None, s)
  | h :: rest =>
      (* list_del then list_add_tail: the head moves to the end *)
      let q := rest ++ [h] in
      Ok (head q, set_runqueue q s)
  end.

(** ** Priority scheduler, also used with the priority ceiling protocol *)

(** The source has this scan twice, word for word: as [pcp_schedule] and as
    a function it names [prio_scheduler], the name of its Priority
    descriptor.  [highest_prio] is the accumulator. *)
Fixpoint prio_scan (m : gmap nat process) (q : list pid)
    (highest_prio : option pid) : result (option pid) :=
  match q with
  | [] => Ok highest_prio
  | curr :: rest =>
      match highest_prio with
      | None => prio_scan m rest (Some curr)
      | Some h =>
          pc ← deref (m !! curr);
          ph ← deref (m !! h);
          if priority pc <? priority ph
          then prio_scan m rest (Some curr)
          else prio_scan m rest highest_prio
      end
  end.

Definition pcp_schedule (s : sim) : result (option pid * sim) :=
  highest_prio ← prio_scan (procs s) (runqueue s) None;
  Ok (highest_prio, s).

(** ** Priority ceiling protocol *)

Section PriorityCeiling.

(** [acquire_lock] and [release_lock] are called by [pcp_acquire] and
    [pcp_release] and defined nowhere in [pa2.c]: the protocol is stated
    over any pair of them.  [acquire_lock] returns an [int], 0 on
    success. *)
Variable acquire_lock : nat -> sim -> result (Z * sim).
Variable release_lock : nat -> sim -> result sim.

Definition pcp_acquire (p : pid) (s : sim) : result (Z * sim) :=
  pp ← proc_at p s;
  '(rc, s1) ← acquire_lock (lock pp) s;
  if bool_decide (rc ≠ 0) then Ok (-1, s1)
  else
    p1 ← proc_at p s1;
    l ← deref (resources s1 !! lock p1);
    if priority p1 <? ceiling l
    then Ok (0, store_proc p (set_priority (ceiling l) p1) s1)
    else Ok (0, s1).

Definition pcp_release (p : pid) (s : sim) : result (Z * sim) :=
  pp ← proc_at p s;
  s1 ← release_lock (lock pp) s;
  p1 ← proc_at p s1;
  Ok (0, store_proc p (set_priority (orig_priority p1) p1) s1).

End PriorityCeiling.

(** ** Scheduler descriptors *)

(** [struct scheduler]: a name and the callbacks; a callback the initializer
    leaves out is a NULL pointer.  [pcp_scheduler] binds [pcp_acquire] and
    [pcp_release], which take a process where these callbacks take a
    resource id, and is not among the descriptors below. *)
Record scheduler := mkScheduler {
  name : string;
  acquire : option (Z -> sim -> result (bool * sim));
  release : option (Z -> sim -> result sim);
  initialize : option (sim -> result (Z * sim));
  finalize : option (sim -> result sim);
  schedule : option (sim -> result (option pid * sim))
}.

Definition fifo_scheduler : scheduler :=
  mkScheduler "FIFO" (Some fcfs_acquire) (Some fcfs_release)
    (Some fifo_initialize) (Some fifo_finalize) (Some fifo_schedule).

Definition sjf_scheduler : scheduler :=
  mkScheduler "Shortest-Job First" (Some fcfs_acquire) (Some fcfs_release)
    None None (Some sjf_schedule).

Definition srtf_scheduler : scheduler :=
  mkScheduler "Shortest Remaining Time First"
    (Some fcfs_acquire) (Some fcfs_release) None None None.

Definition rr_scheduler : scheduler :=
  mkScheduler "Round-Robin" (Some fcfs_acquire) (Some fcfs_release)
    None None None.

Definition prio_scheduler : scheduler :=
  mkScheduler "Priority" None None None None None.

Definition pip_scheduler : scheduler :=
  mkScheduler "Priority + Priority Inheritance Protocol"
    None None None None None.

(** The calls the framework makes through the active descriptor:
    [sched->schedule()], [sched->acquire(id)] and [sched->release(id)]. *)
Definition call_schedule (sched : scheduler) (s : sim)
    : result (option pid * sim) :=
  f ← deref (schedule sched); f s.

Definition call_acquire (sched : scheduler) (resource_id : Z) (s : sim)
    : result (bool * sim) :=
  f ← deref (acquire sched); f resource_id s.

Definition call_release (sched : scheduler) (resource_id : Z) (s : sim)
    : result sim :=
  f ← deref (release sched); f resource_id s.

(** ** Lock primitives for the priority ceiling protocol *)

(** Modelled from the spec: [acquire_lock] and [release_lock] are not in
    [pa2.c]; the spec has the underlying lock attempt succeed on a resource
    nobody owns and be denied otherwise, and has release clear the
    ownership.  These two stand in for them where the protocol is run on a
    concrete state. *)
Definition spec_acquire_lock (l : nat) (s : sim) : result (Z * sim) :=
  r ← deref (resources s !! l);
  match owner r with
  | None =>
      Ok (0, set_resources (<[l := set_owner (current s) r]> (resources s)) s)
  | Some _ => Ok (-1, s)
  end.

Definition spec_release_lock (l : nat) (s : sim) : result sim :=
  r ← deref (resources s !! l);
  Ok (set_resources (<[l := set_owner None r]> (resources s)) s).

(** ** Notions used by the statements *)

(** Every entry of the queue points to a process. *)
Definition all_live (m : gmap nat process) (q : list pid) : Prop :=
  forall p : pid, p ∈ q -> is_Some (m !! p).

(** [sjf_scan] and [srtf_scan] are the same loop over two fields. *)
Fixpoint min_scan (key : process -> Z) (m : gmap nat process) (q : list pid)
    (shortest : option pid) (bound : Z) : result (option pid) :=
  match q with
  | [] => Ok shortest
  | curr :: rest =>
      pc ← deref (m !! curr);
      if key pc <? bound
      then min_scan key m rest (Some curr) (key pc)
      else min_scan key m rest shortest bound
  end.

(** [p], at position [i] of [q], has the least key of [q] and is the first
    entry with that key. *)
Definition first_least (key : process -> Z) (m : gmap nat process)
    (q : list pid) (i : nat) (p : pid) (pr : process) : Prop :=
  q !! i = Some p /\ m !! p = Some pr
  /\ (forall (j : nat) (p' : pid) (pr' : process),
        q !! j = Some p' -> m !! p' = Some pr' -> key pr <= key pr')
  /\ (forall (j : nat) (p' : pid) (pr' : process),
        (j < i)%nat -> q !! j = Some p' -> m !! p' = Some pr' ->
        key pr < key pr').

(** The processes a policy selects in [n] consecutive ticks in which nothing
    but its [schedule] touches the state. *)
Fixpoint selections (sched : sim -> result (option pid * sim)) (n : nat)
    (s : sim) : result (list (option pid)) :=
  match n with
  | O => Ok []
  | S n' =>
      '(next, s') ← sched s;
      l ← selections sched n' s';
      Ok (next :: l)
  end.

(** ** Sample states *)

Definition P1 : pid := 1%nat.
Definition P2 : pid := 2%nat.
Definition P3 : pid := 3%nat.

(** A ready process with the given times and priority. *)
Definition ready_process (exec remain prio : Z) : process :=
  mkProcess PROCESS_READY 0 exec exec remain prio prio 0.

Definition running (p : process) : process := set_status PROCESS_RUNNING p.

(** Resource 0 is owned by [P1] (priority 8); [P2] (priority 1) runs and is
    about to ask for it; [P3] is ready. *)
Definition contended : sim :=
  mkSim (<[P1 := ready_process 4 4 8]>
          (<[P2 := running (ready_process 3 3 1)]>
            (<[P3 := ready_process 5 5 4]> ∅)))
        (Some P2) [P3]
        [mkResource (Some P1) [] 2; mkResource None [] 7].

(** [P1] runs and owns resource 0, on which [P2] and then [P3] wait. *)
Definition held : sim :=
  mkSim (<[P1 := running (ready_process 4 4 8)]>
          (<[P2 := set_status PROCESS_WAIT (ready_process 3 3 1)]>
            (<[P3 := set_status PROCESS_WAIT (ready_process 5 5 4)]> ∅)))
        (Some P1) []
        [mkResource (Some P1) [P2; P3] 2; mkResource None [] 7].

(** As [held], but the first waiter [P2] was left in [PROCESS_READY]. *)
Definition held_bad_waiter : sim :=
  mkSim (<[P1 := running (ready_process 4 4 8)]>
          (<[P2 := ready_process 3 3 1]> ∅))
        (Some P1) []
        [mkResource (Some P1) [P2] 2].

(** [P1] has run its whole lifespan; [P2] and [P3] are ready, in this
    order. *)
Definition finished : sim :=
  mkSim (<[P1 := mkProcess PROCESS_RUNNING 4 4 4 0 8 8 0]>
          (<[P2 := ready_process 3 3 1]>
            (<[P3 := ready_process 5 5 4]> ∅)))
        (Some P1) [P2; P3]
        [mkResource None [] 2].

(** [P1] (4 ticks expected) and [P2] (3 ticks expected) are ready and
    nothing runs. *)
Definition two_ready : sim :=
  mkSim (<[P1 := ready_process 4 4 8]> (<[P2 := ready_process 3 3 1]> ∅))
        None [P1; P2]
        [mkResource None [] 2].

Definition three_ready : sim :=
  mkSim (<[P1 := ready_process 4 4 8]>
          (<[P2 := ready_process 3 3 1]>
            (<[P3 := ready_process 5 5 4]> ∅)))
        None [P1; P2; P3]
        [mkResource None [] 2].

(** The only ready process, [P1], has [ULONG_MAX] as expected and remaining
    time. *)
Definition one_long : sim :=
  mkSim (<[P1 := ready_process ULONG_MAX ULONG_MAX 3]> ∅)
        None [P1]
        [mkResource None [] 2].

(** [P1] runs with 4 ticks left while [P2], with 3 left, is ready behind
    it. *)
Definition srtf_preempting : sim :=
  mkSim (<[P1 := running (ready_process 6 4 8)]>
          (<[P2 := ready_process 3 3 1]> ∅))
        (Some P1) [P1; P2]
        [mkResource None [] 2].

(** [P1], of priority [prio], runs and is about to lock resource 0, which is
    free and has ceiling [ceil]. *)
Definition pcp_scene (prio ceil : Z) : sim :=
  mkSim (<[P1 := running (ready_process 4 4 prio)]> ∅)
        (Some P1) []
        [mkResource None [] ceil].

(** ** Notions used by the further properties *)

(** The state after [n] consecutive ticks of a policy in which nothing but
    its [schedule] touches the state. *)
Fixpoint after_ticks (sched : sim -> result (option pid * sim)) (n : nat)
    (s : sim) : result sim :=
  match n with
  | O => Ok s
  | S n' => '(_, s') ← sched s; after_ticks sched n' s'
  end.

(** What the second assertion of [fcfs_release] expects of the state: every
    entry of every wait queue is a process in [PROCESS_WAIT]. *)
Definition waiters_wait (s : sim) : Prop :=
  forall (i : nat) (r : resource) (p : pid),
    resources s !! i = Some r -> p ∈ waitqueue r ->
    exists pr : process, procs s !! p = Some pr /\ status pr = PROCESS_WAIT.

(** A process record with its status masked: two records with the same
    image differ in their status at most. *)
Definition but_status (p : process) : process := set_status PROCESS_READY p.

(** A check of [all_live] that computes. *)
Definition all_liveb (m : gmap nat process) (q : list pid) : bool :=
  forallb (fun p => match m !! p with Some _ => true | None => false end) q.

(** [P2] was selected by a scanning policy, so it runs and is still in the
    ready queue; resource 0 is owned by [P1]. *)
Definition scan_running : sim :=
  mkSim (<[P1 := ready_process 4 4 8]>
          (<[P2 := running (ready_process 3 3 1)]> ∅))
        (Some P2) [P1; P2]
        [mkResource (Some P1) [] 2].

(** [P1] runs; resource 0 is free and nobody waits for it. *)
Definition free_resource : sim :=
  mkSim (<[P1 := running (ready_process 4 4 8)]>
          (<[P2 := ready_process 3 3 1]> ∅))
        (Some P1) [P2]
        [mkResource None [] 2].

(** [P1], of priority [prio], runs, is still in the ready queue (the
    priority scan leaves its pick there) ahead of [P2], of priority 3, and
    is about to lock resource 0, which is free and has ceiling [ceil]. *)
Definition pcp_contest (prio ceil : Z) : sim :=
  mkSim (<[P1 := running (ready_process 4 4 prio)]>
          (<[P2 := ready_process 3 3 3]> ∅))
        (Some P1) [P1; P2]
        [mkResource None [] ceil].

(** ** Proof support *)

(** Expose the fields written by the store operations. *)
Ltac unfold_stores :=
  unfold store_resource, store_proc, set_resources, set_procs,
    set_readyqueue, set_owner, set_waitqueue in *;
  simpl in *.

(** ** Basic facts *)

Lemma resource_at_ok (resource_id : Z) (s : sim) (r : resource) :
  0 <= resource_id ->
  resources s !! Z.to_nat resource_id = Some r ->
  resource_at resource_id s = Ok r.
Proof.
  intros Hge Hr. unfold resource_at.
  destruct (decide (0 <= resource_id)); [|lia].
  now rewrite Hr.
Qed.

Lemma resource_at_inv (resource_id : Z) (s : sim) (r : resource) :
  resource_at resource_id s = Ok r ->
  0 <= resource_id /\ resources s !! Z.to_nat resource_id = Some r.
Proof.
  unfold resource_at. destruct (decide (0 <= resource_id)); [|discriminate].
  destruct (resources s !! Z.to_nat resource_id); simpl; [|discriminate].
  intros [= ->]. auto.
Qed.

(** ** FCFS acquire *)

(** C2: with a requester [c] running, [fcfs_acquire] on an unowned resource
    makes [c] the owner and returns true, touching nothing else; on an owned
    resource, asked by a [c] that is in no queue, it sets the status of [c]
    to [PROCESS_WAIT], appends [c] to the end of that resource's wait queue,
    leaves every other field and queue alone and returns false. *)
Theorem fcfs_acquire_spec (resource_id : Z) (s : sim) (r : resource)
    (c : pid) (pc : process) :
  0 <= resource_id ->
  resources s !! Z.to_nat resource_id = Some r ->
  current s = Some c ->
  procs s !! c = Some pc ->
  (owner r = None ->
     fcfs_acquire resource_id s =
       Ok (true,
           mkSim (procs s) (current s) (readyqueue s)
             (<[Z.to_nat resource_id :=
                  mkResource (Some c) (waitqueue r) (ceiling r)]>
                (resources s))))
  /\ (owner r <> None -> c ∉ queued s ->
     fcfs_acquire resource_id s =
       Ok (false,
           mkSim (<[c := mkProcess PROCESS_WAIT (age pc) (lifespan pc)
                          (expected_exec_time pc) (remaining_exec_time pc)
                          (priority pc) (orig_priority pc) (lock pc)]>
                    (procs s))
             (current s) (readyqueue s)
             (<[Z.to_nat resource_id :=
                  mkResource (owner r) (waitqueue r ++ [c]) (ceiling r)]>
                (resources s)))).
Proof.
  intros Hge Hr Hc Hpc. unfold fcfs_acquire.
  rewrite (resource_at_ok _ _ _ Hge Hr). simpl.
  split.
  - intros Ho. rewrite Ho.
    destruct s as [m cur rq rs]. simpl in *. subst cur. reflexivity.
  - intros Ho Hout.
    destruct (owner r) as [o|] eqn:Eo; [|congruence].
    unfold proc_at. rewrite Hc. simpl. rewrite Hpc. simpl.
    rewrite bool_decide_eq_false_2 by exact Hout.
    destruct s as [m cur rq rs]. simpl in *. subst cur.
    unfold store_resource, set_waitqueue. simpl. now rewrite Eo.
Qed.

Lemma fcfs_acquire_spec_witness :
  fcfs_acquire 1 contended =
    Ok (true,
        mkSim (procs contended) (Some P2) [P3]
          [mkResource (Some P1) [] 2; mkResource (Some P2) [] 7])
  /\ fcfs_acquire 0 contended =
    Ok (false,
        mkSim (<[P2 := mkProcess PROCESS_WAIT 0 3 3 3 1 1 0]>
                 (procs contended))
          (Some P2) [P3]
          [mkResource (Some P1) [P2] 2; mkResource None [] 7]).
Proof.
  split.
  - apply (fcfs_acquire_spec 1 contended (mkResource None [] 7) P2
             (running (ready_process 3 3 1)));
      [lia | reflexivity | reflexivity | reflexivity | reflexivity].
  - apply (fcfs_acquire_spec 0 contended (mkResource (Some P1) [] 2) P2
             (running (ready_process 3 3 1)));
      [lia | reflexivity | reflexivity | reflexivity | discriminate |].
    apply (bool_decide_unpack _). vm_compute. reflexivity.
Defined.



(** ** FCFS release *)

(** C3: [fcfs_release] stops at its assertion when the owner of the resource
    is not [current].  Called by the owner it clears the owner; with an empty
    wait queue nothing else changes; otherwise the first waiter (in
    [PROCESS_WAIT], as the second assertion checks) leaves the wait queue,
    becomes [PROCESS_READY] and goes to the end of the ready queue, and the
    resource stays without an owner; a first waiter in any other status
    stops the call at that second assertion. *)
Theorem fcfs_release_spec (resource_id : Z) (s : sim) (r : resource) :
  0 <= resource_id ->
  resources s !! Z.to_nat resource_id = Some r ->
  (owner r <> current s -> fcfs_release resource_id s = AssertFail)
  /\ (owner r = current s -> waitqueue r = [] ->
      fcfs_release resource_id s =
        Ok (mkSim (procs s) (current s) (readyqueue s)
              (<[Z.to_nat resource_id := mkResource None [] (ceiling r)]>
                 (resources s))))
  /\ (forall (waiter : pid) (rest : list pid) (pw : process),
      owner r = current s ->
      waitqueue r = waiter :: rest ->
      procs s !! waiter = Some pw ->
      status pw = PROCESS_WAIT ->
      fcfs_release resource_id s =
        Ok (mkSim (<[waiter := mkProcess PROCESS_READY (age pw) (lifespan pw)
                                 (expected_exec_time pw)
                                 (remaining_exec_time pw) (priority pw)
                                 (orig_priority pw) (lock pw)]>
                     (procs s))
              (current s) (readyqueue s ++ [waiter])
              (<[Z.to_nat resource_id := mkResource None rest (ceiling r)]>
                 (resources s))))
  /\ (forall (waiter : pid) (rest : list pid) (pw : process),
      owner r = current s ->
      waitqueue r = waiter :: rest ->
      procs s !! waiter = Some pw ->
      status pw <> PROCESS_WAIT ->
      fcfs_release resource_id s = AssertFail).
Proof.
  intros Hge Hr. unfold fcfs_release.
  rewrite (resource_at_ok _ _ _ Hge Hr). simpl.
  split; [|split; [|split]].
  - intros Hne. rewrite bool_decide_eq_false_2 by exact Hne. reflexivity.
  - intros Ho Hq. rewrite bool_decide_eq_true_2 by exact Ho. simpl.
    rewrite Hq. unfold_stores. now rewrite Hq.
  - intros waiter rest pw Ho Hq Hpw Hst.
    rewrite bool_decide_eq_true_2 by exact Ho. simpl.
    rewrite Hq. unfold proc_at. rewrite Hpw. simpl.
    rewrite bool_decide_eq_true_2 by exact Hst. reflexivity.
  - intros waiter rest pw Ho Hq Hpw Hst.
    rewrite bool_decide_eq_true_2 by exact Ho. simpl.
    rewrite Hq. unfold proc_at. rewrite Hpw. simpl.
    rewrite bool_decide_eq_false_2 by exact Hst. reflexivity.
Qed.

Lemma fcfs_release_spec_witness :
  fcfs_release 0 contended = AssertFail
  /\ fcfs_release 0 held =
       Ok (mkSim (<[P2 := mkProcess PROCESS_READY 0 3 3 3 1 1 0]>
                    (procs held))
             (Some P1) [P2]
             [mkResource None [P3] 2; mkResource None [] 7])
  /\ fcfs_release 0 held_bad_waiter = AssertFail.
Proof.
  split; [|split].
  - apply (fcfs_release_spec 0 contended (mkResource (Some P1) [] 2));
      [lia | reflexivity | discriminate].
  - apply (proj1 (proj2 (proj2
             (fcfs_release_spec 0 held
                (mkResource (Some P1) [P2; P3] 2) ltac:(lia) eq_refl)))
             P2 [P3] (set_status PROCESS_WAIT (ready_process 3 3 1)));
      [reflexivity | reflexivity | reflexivity | reflexivity].
  - apply (proj2 (proj2 (proj2
             (fcfs_release_spec 0 held_bad_waiter
                (mkResource (Some P1) [P2] 2) ltac:(lia) eq_refl)))
             P2 [] (ready_process 3 3 1));
      [reflexivity | reflexivity | reflexivity | discriminate].
Defined.

(** ** FIFO *)

(** C5: [fifo_schedule] returns [current] again when there is one, it is not
    in [PROCESS_WAIT] and its age is below its lifespan, leaving every queue
    as it was; in every other case it detaches and returns the first process
    of the ready queue, or returns NULL, changing nothing, when the ready
    queue is empty. *)
Theorem fifo_schedule_spec (s : sim) :
  (forall (c : pid) (pc : process),
      current s = Some c -> procs s !! c = Some pc ->
      status pc <> PROCESS_WAIT -> age pc < lifespan pc ->
      fifo_schedule s = Ok (Some c, s))
  /\ (current s = None
      \/ (exists (c : pid) (pc : process),
            current s = Some c /\ procs s !! c = Some pc
            /\ (status pc = PROCESS_WAIT \/ lifespan pc <= age pc)) ->
      fifo_schedule s =
        Ok (match readyqueue s with
            | [] => (None, s)
            | next :: rest =>
                (Some next, mkSim (procs s) (current s) rest (resources s))
            end)).
Proof.
  destruct s as [m cur rq rs].
  unfold fifo_schedule, proc_at, pick_next. simpl. split.
  - intros c pc -> Hpc Hst Hage. rewrite Hpc. simpl.
    rewrite bool_decide_eq_false_2 by exact Hst.
    destruct (Z.ltb_spec (age pc) (lifespan pc)); [reflexivity | lia].
  - intros [-> | (c & pc & -> & Hpc & Hcase)].
    + destruct rq; reflexivity.
    + rewrite Hpc. simpl. destruct Hcase as [Hst | Hage].
      * rewrite bool_decide_eq_true_2 by exact Hst. destruct rq; reflexivity.
      * destruct (bool_decide (status pc = PROCESS_WAIT));
          [destruct rq; reflexivity|].
        destruct (Z.ltb_spec (age pc) (lifespan pc));
          [lia | destruct rq; reflexivity].
Qed.

Lemma fifo_schedule_spec_witness :
  fifo_schedule contended = Ok (Some P2, contended)
  /\ fifo_schedule finished =
       Ok (Some P2, mkSim (procs finished) (Some P1) [P3] (resources finished)).
Proof.
  split.
  - apply (proj1 (fifo_schedule_spec contended) P2
             (running (ready_process 3 3 1)));
      [reflexivity | reflexivity | discriminate | reflexivity].
  - apply (proj2 (fifo_schedule_spec finished)).
    right. exists P1, (mkProcess PROCESS_RUNNING 4 4 4 0 8 8 0).
    split; [reflexivity | split; [reflexivity | right; simpl; lia]].
Defined.

(** ** Queue discipline *)

(** Replacing the wait queue of one resource replaces one segment of the
    concatenated wait queues. *)
Lemma waitqueues_split (rs : list resource) (n : nat) (r : resource) :
  rs !! n = Some r ->
  exists pre post : list pid,
    mjoin (waitqueue <$> rs) = pre ++ waitqueue r ++ post
    /\ forall r' : resource,
         mjoin (waitqueue <$> <[n := r']> rs) = pre ++ waitqueue r' ++ post.
Proof.
  intros Hr.
  exists (mjoin (waitqueue <$> take n rs)),
         (mjoin (waitqueue <$> drop (S n) rs)).
  split.
  - rewrite <- (take_drop_middle rs n r Hr) at 1.
    rewrite fmap_app, join_app. reflexivity.
  - intros r'. rewrite insert_take_drop by (eapply lookup_lt_Some; eauto).
    rewrite fmap_app, join_app. reflexivity.
Qed.

Lemma fcfs_acquire_no_duplicates (resource_id : Z) (s s' : sim) (b : bool) :
  NoDup (queued s) ->
  (forall c : pid, current s = Some c -> c ∉ queued s) ->
  fcfs_acquire resource_id s = Ok (b, s') ->
  NoDup (queued s').
Proof.
  intros Hnd Hcur H. unfold fcfs_acquire in H.
  destruct (resource_at resource_id s) as [r| | |] eqn:Er; simpl in H;
    try discriminate.
  apply resource_at_inv in Er as [Hge Hr].
  destruct (waitqueues_split _ _ _ Hr) as (pre & post & Hq & Hq').
  unfold queued in *. rewrite Hq in *.
  destruct (owner r) as [o|] eqn:Eo.
  - destruct (current s) as [c|] eqn:Ec; simpl in H; [|discriminate].
    destruct (proc_at c s) as [pc| | |]; simpl in H; try discriminate.
    destruct (bool_decide (c ∈ _)); [discriminate|].
    injection H as <- <-. simpl. rewrite Hq'. simpl.
    specialize (Hcur c eq_refl).
    assert (Hperm : readyqueue s ++ pre ++ (waitqueue r ++ [c]) ++ post
                    ≡ₚ c :: (readyqueue s ++ pre ++ waitqueue r ++ post))
      by solve_Permutation.
    rewrite Hperm. apply NoDup_cons. auto.
  - injection H as <- <-. simpl. rewrite Hq'. exact Hnd.
Qed.

Lemma fcfs_release_no_duplicates (resource_id : Z) (s s' : sim) :
  NoDup (queued s) ->
  fcfs_release resource_id s = Ok s' ->
  NoDup (queued s').
Proof.
  intros Hnd H. unfold fcfs_release in H.
  destruct (resource_at resource_id s) as [r| | |] eqn:Er; simpl in H;
    try discriminate.
  apply resource_at_inv in Er as [Hge Hr].
  destruct (waitqueues_split _ _ _ Hr) as (pre & post & Hq & Hq').
  unfold queued in *. rewrite Hq in *.
  destruct (bool_decide (owner r = current s)); simpl in H; [|discriminate].
  destruct (waitqueue r) as [|waiter rest] eqn:Ew.
  - injection H as <-. simpl. rewrite Hq'. simpl. now rewrite Ew.
  - destruct (proc_at waiter s) as [pw| | |]; simpl in H; try discriminate.
    destruct (bool_decide (status pw = PROCESS_WAIT)); simpl in H;
      [|discriminate].
    injection H as <-. simpl. rewrite Hq'. simpl.
    assert (Hperm : (readyqueue s ++ [waiter]) ++ pre ++ rest ++ post
                    ≡ₚ readyqueue s ++ pre ++ (waiter :: rest) ++ post)
      by solve_Permutation.
    rewrite Hperm. exact Hnd.
Qed.

(** From a state in which no process is
    queued twice and a [current] that is not waiting is in no queue,
    [fifo_schedule] returns, leaves no process queued twice, and the process
    it returns is in neither the ready queue nor any wait queue. *)
Lemma fifo_schedule_detaches (s : sim) :
  NoDup (queued s) ->
  (forall (c : pid) (pc : process),
      current s = Some c -> procs s !! c = Some pc ->
      status pc <> PROCESS_WAIT -> c ∉ queued s) ->
  (forall c : pid, current s = Some c -> is_Some (procs s !! c)) ->
  exists (next : option pid) (s' : sim),
    fifo_schedule s = Ok (next, s')
    /\ NoDup (queued s')
    /\ (forall p : pid, next = Some p -> p ∉ queued s').
Proof.
  intros Hnd Hcur Hvalid.
  assert (Hpick : exists next s',
             pick_next s = (next, s') /\ NoDup (queued s')
             /\ (forall p, next = Some p -> p ∉ queued s')).
  { unfold pick_next, queued in *.
    destruct (readyqueue s) as [|h t] eqn:Eq.
    - exists None, s. rewrite Eq. split; [reflexivity|]. split; [exact Hnd|].
      discriminate.
    - exists (Some h), (set_readyqueue t s). split; [reflexivity|].
      simpl in *. apply NoDup_cons in Hnd as [Hh Ht].
      split; [exact Ht|]. now intros p [= <-]. }
  destruct Hpick as (next & s' & Hp & Hnd' & Hout).
  unfold fifo_schedule.
  destruct (current s) as [c|] eqn:Ec.
  - destruct (Hvalid c eq_refl) as [pc Hpc]. unfold proc_at.
    rewrite Hpc. simpl.
    destruct (bool_decide (status pc = PROCESS_WAIT)) eqn:Est.
    + exists next, s'. now rewrite Hp.
    + apply bool_decide_eq_false in Est.
      destruct (age pc <? lifespan pc).
      * exists (Some c), s. split; [reflexivity|]. split; [exact Hnd|].
        intros p [= <-]. eapply Hcur; eauto.
      * exists next, s'. now rewrite Hp.
  - exists next, s'. now rewrite Hp.
Qed.

(** The FIFO policy keeps the queues apart: from a state in which no process is
    queued twice and a [current] that is not waiting is in no queue, the
    [schedule] callback of [fifo_scheduler] returns a process that is in
    neither the ready queue nor any wait queue afterwards, and [schedule],
    [acquire] (called for a [current] that is in no queue) and [release]
    leave no process queued twice. *)
Lemma fifo_scheduler_queue_discipline (s : sim) :
  NoDup (queued s) ->
  (forall c : pid, current s = Some c ->
     exists pc : process,
       procs s !! c = Some pc
       /\ (status pc <> PROCESS_WAIT -> c ∉ queued s)) ->
  (exists (next : option pid) (s' : sim),
      call_schedule fifo_scheduler s = Ok (next, s')
      /\ NoDup (queued s')
      /\ (forall p : pid, next = Some p -> p ∉ queued s'))
  /\ (forall (resource_id : Z) (b : bool) (s' : sim),
        (forall c : pid, current s = Some c -> c ∉ queued s) ->
        call_acquire fifo_scheduler resource_id s = Ok (b, s') ->
        NoDup (queued s'))
  /\ (forall (resource_id : Z) (s' : sim),
        call_release fifo_scheduler resource_id s = Ok s' ->
        NoDup (queued s')).
Proof.
  intros Hnd Hcur. split; [|split].
  - apply fifo_schedule_detaches; [exact Hnd| |].
    + intros c pc Hc Hpc Hst. destruct (Hcur c Hc) as (pc' & Hpc' & Hout).
      rewrite Hpc in Hpc'. injection Hpc' as <-. auto.
    + intros c Hc. destruct (Hcur c Hc) as (pc & Hpc & _). eauto.
  - intros resource_id b s' Hout H.
    eapply fcfs_acquire_no_duplicates; eauto.
  - intros resource_id s' H.
    eapply fcfs_release_no_duplicates; eauto.
Qed.

Lemma fifo_scheduler_queue_discipline_witness :
  (exists (next : option pid) (s' : sim),
      call_schedule fifo_scheduler finished = Ok (next, s')
      /\ NoDup (queued s')
      /\ (forall p : pid, next = Some p -> p ∉ queued s'))
  /\ (forall (resource_id : Z) (b : bool) (s' : sim),
        (forall c : pid, current finished = Some c -> c ∉ queued finished) ->
        call_acquire fifo_scheduler resource_id finished = Ok (b, s') ->
        NoDup (queued s'))
  /\ (forall (resource_id : Z) (s' : sim),
        call_release fifo_scheduler resource_id finished = Ok s' ->
        NoDup (queued s')).
Proof.
  apply (fifo_scheduler_queue_discipline finished).
  - apply (bool_decide_unpack _). vm_compute. reflexivity.
  - intros c [= <-]. exists (mkProcess PROCESS_RUNNING 4 4 4 0 8 8 0).
    split; [reflexivity|]. intros _.
    apply (bool_decide_unpack _). vm_compute. reflexivity.
Defined.

(** [sjf_schedule] hands out [P2] and [P2] is still in the ready queue
    afterwards. *)
Lemma sjf_schedule_leaves_selected_queued :
  sjf_schedule two_ready = Ok (Some P2, two_ready)
  /\ P2 ∈ readyqueue two_ready
  /\ P2 ∈ queued two_ready.
Proof.
  split; [reflexivity|].
  split; apply (bool_decide_unpack _); vm_compute; reflexivity.
Qed.

(** C4 where the source misses it.  From the ready queue [P1, P2]
    [sjf_schedule] returns [P2] and leaves it linked in the ready queue,
    where the sibling [fifo_schedule] detaches the process it returns.  With
    that pick running and still linked, a blocking acquire through the SJF
    descriptor, whose [acquire] is [fcfs_acquire], links the node of [P2]
    into the wait queue as well, and the ready queue is broken. *)
Theorem sjf_schedule_pick_stays_linked :
  sjf_schedule two_ready = Ok (Some P2, two_ready)
  /\ P2 ∈ queued two_ready
  /\ (exists s' : sim,
        fifo_schedule two_ready = Ok (Some P1, s') /\ P1 ∉ queued s')
  /\ sjf_schedule scan_running = Ok (Some P2, scan_running)
  /\ current scan_running = Some P2
  /\ P2 ∈ readyqueue scan_running
  /\ call_acquire sjf_scheduler 0 scan_running = BrokenList.
Proof.
  split; [reflexivity|].
  split; [apply (bool_decide_unpack _); vm_compute; reflexivity|].
  split.
  { eexists. split; [reflexivity|].
    apply (bool_decide_unpack _). vm_compute. reflexivity. }
  split; [reflexivity|]. split; [reflexivity|].
  split; [apply (bool_decide_unpack _); vm_compute; reflexivity|].
  reflexivity.
Qed.

(** ** Scanning for a minimum *)

Lemma sjf_scan_min_scan m q shortest bound :
  sjf_scan m q shortest bound
  = min_scan expected_exec_time m q shortest bound.
Proof.
  revert shortest bound. induction q as [|curr rest IH]; intros; simpl.
  - reflexivity.
  - destruct (m !! curr); simpl; [|reflexivity].
    now rewrite !IH.
Qed.

Lemma srtf_scan_min_scan m q shortest bound :
  srtf_scan m q shortest bound
  = min_scan remaining_exec_time m q shortest bound.
Proof.
  revert shortest bound. induction q as [|curr rest IH]; intros; simpl.
  - reflexivity.
  - destruct (m !! curr); simpl; [|reflexivity].
    now rewrite !IH.
Qed.

Section MinScan.

Variable key : process -> Z.
Variable m : gmap nat process.

(** The loop either keeps its accumulator, when no entry is below the
    bound, or ends on the first entry with the least key, which is below the
    bound. *)
Lemma min_scan_outcome (q : list pid) (shortest : option pid) (bound : Z) :
  all_live m q ->
  (min_scan key m q shortest bound = Ok shortest
   /\ forall (p : pid) (pr : process),
        p ∈ q -> m !! p = Some pr -> bound <= key pr)
  \/ (exists (i : nat) (p : pid) (pr : process),
        min_scan key m q shortest bound = Ok (Some p)
        /\ first_least key m q i p pr /\ key pr < bound).
Proof.
  revert shortest bound.
  induction q as [|curr rest IH]; intros shortest bound Hlive.
  - left. split; [reflexivity|]. intros p pr Hin. inversion Hin.
  - assert (Hrest : all_live m rest).
    { intros p Hp. apply Hlive. now right. }
    destruct (Hlive curr) as [pc Hpc]; [now left|].
    simpl. rewrite Hpc. simpl.
    destruct (Z.ltb_spec (key pc) bound) as [Hlt|Hge].
    + right.
      destruct (IH (Some curr) (key pc) Hrest)
        as [[Hres Hall] | (i & p & pr & Hres & Hfl & Hlt')].
      * exists 0%nat, curr, pc. split; [exact Hres|]. split; [|exact Hlt].
        split; [reflexivity|]. split; [exact Hpc|]. split.
        -- intros [|j] p' pr' Hj Hp'; simpl in Hj.
           ++ injection Hj as <-. rewrite Hpc in Hp'. injection Hp' as <-. lia.
           ++ apply (Hall p' pr'); [|exact Hp'].
              eapply list_elem_of_lookup_2; eauto.
        -- intros j p' pr' Hj. lia.
      * destruct Hfl as (Hi & Hp & Hmin & Hfirst).
        exists (S i), p, pr. split; [exact Hres|]. split; [|lia].
        split; [exact Hi|]. split; [exact Hp|]. split.
        -- intros [|j] p' pr' Hj Hp'; simpl in Hj.
           ++ injection Hj as <-. rewrite Hpc in Hp'. injection Hp' as <-. lia.
           ++ eapply Hmin; eauto.
        -- intros [|j] p' pr' Hlt'' Hj Hp'; simpl in Hj.
           ++ injection Hj as <-. rewrite Hpc in Hp'. injection Hp' as <-. lia.
           ++ eapply (Hfirst j); eauto. lia.
    + destruct (IH shortest bound Hrest)
        as [[Hres Hall] | (i & p & pr & Hres & Hfl & Hlt')].
      * left. split; [exact Hres|]. intros p pr Hin Hp.
        apply elem_of_cons in Hin as [->|Hin].
        -- rewrite Hpc in Hp. injection Hp as <-. exact Hge.
        -- eapply Hall; eauto.
      * right. destruct Hfl as (Hi & Hp & Hmin & Hfirst).
        exists (S i), p, pr. split; [exact Hres|]. split; [|exact Hlt'].
        split; [exact Hi|]. split; [exact Hp|]. split.
        -- intros [|j] p' pr' Hj Hp'; simpl in Hj.
           ++ injection Hj as <-. rewrite Hpc in Hp'. injection Hp' as <-. lia.
           ++ eapply Hmin; eauto.
        -- intros [|j] p' pr' Hlt'' Hj Hp'; simpl in Hj.
           ++ injection Hj as <-. rewrite Hpc in Hp'. injection Hp' as <-. lia.
           ++ eapply (Hfirst j); eauto. lia.
Qed.

End MinScan.

(** ** SJF *)

(** X1: With some ready process expected to run for less than [ULONG_MAX],
    [sjf_schedule] returns the first ready process with the least
    [expected_exec_time] and leaves the state as it is. *)
Lemma sjf_schedule_selects (s : sim) :
  all_live (procs s) (runqueue s) ->
  (exists (p : pid) (pr : process),
      p ∈ runqueue s /\ procs s !! p = Some pr
      /\ expected_exec_time pr < ULONG_MAX) ->
  exists (i : nat) (p : pid) (pr : process),
    sjf_schedule s = Ok (Some p, s)
    /\ first_least expected_exec_time (procs s) (runqueue s) i p pr.
Proof.
  intros Hlive (p0 & pr0 & Hin & Hp0 & Hlt).
  unfold sjf_schedule. rewrite sjf_scan_min_scan.
  destruct (min_scan_outcome expected_exec_time _ _ None ULONG_MAX Hlive)
    as [[_ Hall] | (i & p & pr & Hres & Hfl & _)].
  - specialize (Hall p0 pr0 Hin Hp0). lia.
  - exists i, p, pr. rewrite Hres. split; [reflexivity | exact Hfl].
Qed.

Lemma sjf_schedule_idle (s : sim) :
  runqueue s = [] -> sjf_schedule s = Ok (None, s).
Proof. intros Hq. unfold sjf_schedule. now rewrite Hq. Qed.

(** Without such a process the scan never leaves its initial
    [shortest = NULL]. *)
Lemma sjf_schedule_none_below_bound (s : sim) :
  all_live (procs s) (runqueue s) ->
  (forall (p : pid) (pr : process),
      p ∈ runqueue s -> procs s !! p = Some pr ->
      ULONG_MAX <= expected_exec_time pr) ->
  sjf_schedule s = Ok (None, s).
Proof.
  intros Hlive Hall.
  unfold sjf_schedule. rewrite sjf_scan_min_scan.
  destruct (min_scan_outcome expected_exec_time _ _ None ULONG_MAX Hlive)
    as [[Hres _] | (i & p & pr & _ & Hfl & Hlt)].
  - now rewrite Hres.
  - destruct Hfl as (Hi & Hp & _).
    apply list_elem_of_lookup_2 in Hi. specialize (Hall p pr Hi Hp). lia.
Qed.

(** C6 at a ready set on which the source misses: the one ready process has
    [expected_exec_time = ULONG_MAX], the strict test against the initial
    [min_exec_time = ULONG_MAX] never succeeds, and [sjf_schedule] returns
    NULL although the ready queue is not empty. *)
Theorem sjf_schedule_skips_ulong_max :
  runqueue one_long = [P1]
  /\ expected_exec_time <$> (procs one_long !! P1) = Some ULONG_MAX
  /\ sjf_schedule one_long = Ok (None, one_long).
Proof. split; [reflexivity | split; reflexivity]. Qed.

(** The priority scan of the same file starts from its first entry instead
    of a sentinel value and does return [P1] there. *)
Lemma pcp_schedule_one_long :
  pcp_schedule one_long = Ok (Some P1, one_long).
Proof. reflexivity. Qed.

(** ** SRTF *)

(** X2: With some ready process left with less than [ULONG_MAX] to run,
    [srtf_schedule] returns the first ready process with the least
    [remaining_exec_time] and leaves the state as it is. *)
Lemma srtf_schedule_selects (s : sim) :
  all_live (procs s) (runqueue s) ->
  (exists (p : pid) (pr : process),
      p ∈ runqueue s /\ procs s !! p = Some pr
      /\ remaining_exec_time pr < ULONG_MAX) ->
  exists (i : nat) (p : pid) (pr : process),
    srtf_schedule s = Ok (Some p, s)
    /\ first_least remaining_exec_time (procs s) (runqueue s) i p pr.
Proof.
  intros Hlive (p0 & pr0 & Hin & Hp0 & Hlt).
  unfold srtf_schedule. rewrite srtf_scan_min_scan.
  destruct (min_scan_outcome remaining_exec_time _ _ None ULONG_MAX Hlive)
    as [[_ Hall] | (i & p & pr & Hres & Hfl & _)].
  - specialize (Hall p0 pr0 Hin Hp0). lia.
  - exists i, p, pr. rewrite Hres. split; [reflexivity | exact Hfl].
Qed.

Lemma srtf_schedule_preempts :
  srtf_schedule srtf_preempting = Ok (Some P2, srtf_preempting)
  /\ current srtf_preempting = Some P1.
Proof. split; reflexivity. Qed.

(** C7 where the source misses it: the [srtf_scheduler] descriptor binds no
    [schedule] callback, so a tick of the SRTF policy calls through a NULL
    pointer in every state; and [srtf_schedule] itself, like the SJF scan,
    returns NULL on a ready queue whose only process has
    [remaining_exec_time = ULONG_MAX]. *)
Theorem srtf_schedule_unbound_and_skips_ulong_max :
  (forall s : sim, call_schedule srtf_scheduler s = Fault)
  /\ runqueue one_long = [P1]
  /\ remaining_exec_time <$> (procs one_long !! P1) = Some ULONG_MAX
  /\ srtf_schedule one_long = Ok (None, one_long).
Proof.
  split; [intros s; reflexivity|].
  split; [reflexivity | split; reflexivity].
Qed.

(** ** Round-robin *)

(** C8 as stated fails: from the ready queue [P1, P2, P3] the first process
    selected is [P2] and the first three selections are [P2, P3, P1], not
    [P1, P2, P3]. *)
Lemma rr_schedule_starts_with_second :
  readyqueue three_ready = [P1; P2; P3]
  /\ rr_schedule three_ready
     = Ok (Some P2, set_runqueue [P2; P3; P1] three_ready)
  /\ selections rr_schedule 3 three_ready = Ok [Some P2; Some P3; Some P1]
  /\ selections rr_schedule 3 three_ready <> Ok [Some P1; Some P2; Some P3].
Proof.
  split; [reflexivity|]. split; [reflexivity|]. split; [reflexivity|].
  discriminate.
Qed.

Lemma selections_three_more (sched : sim -> result (option pid * sim))
    (s s1 s2 s3 : sim) (x y z : option pid) (n : nat) :
  sched s = Ok (x, s1) -> sched s1 = Ok (y, s2) -> sched s2 = Ok (z, s3) ->
  selections sched (S (S (S n))) s
  = (l ← selections sched n s3; Ok (x :: y :: z :: l)).
Proof.
  intros H1 H2 H3. simpl. rewrite H1. simpl. rewrite H2. simpl.
  rewrite H3. simpl. destruct (selections sched n s3); reflexivity.
Qed.

(** C8, amended in its example: [rr_schedule] returns NULL on an empty ready
    queue; otherwise it moves the head of the ready queue to the end and
    returns the process then at the head; starting from the ready queue
    [a, b, c] the selections of successive ticks are b, c, a, b, c, a, ...,
    for any number of ticks. *)
Theorem rr_schedule_cycle (m : gmap nat process) (cur : option pid)
    (rs : list resource) :
  rr_schedule (mkSim m cur [] rs) = Ok (None, mkSim m cur [] rs)
  /\ (forall (h : pid) (rest : list pid),
        rr_schedule (mkSim m cur (h :: rest) rs)
        = Ok (head (rest ++ [h]), mkSim m cur (rest ++ [h]) rs))
  /\ (forall (a b c : pid) (k j : nat),
        (j < 3)%nat ->
        selections rr_schedule (3 * k + j) (mkSim m cur [a; b; c] rs)
        = Ok (mjoin (replicate k [Some b; Some c; Some a])
              ++ take j [Some b; Some c; Some a])).
Proof.
  split; [reflexivity|]. split; [reflexivity|].
  intros a b c k j Hj. induction k as [|k IH].
  - destruct j as [|[|[|j]]]; [reflexivity..|lia].
  - replace (3 * S k + j)%nat with (S (S (S (3 * k + j)))) by lia.
    rewrite (selections_three_more rr_schedule _
               (mkSim m cur [b; c; a] rs) (mkSim m cur [c; a; b] rs)
               (mkSim m cur [a; b; c] rs) (Some b) (Some c) (Some a));
      [|reflexivity..].
    rewrite IH. reflexivity.
Qed.

Lemma rr_schedule_cycle_witness :
  selections rr_schedule 7 three_ready
  = Ok [Some P2; Some P3; Some P1; Some P2; Some P3; Some P1; Some P2].
Proof.
  apply (proj2 (proj2 (rr_schedule_cycle (procs three_ready) None
                         (resources three_ready)))
           P1 P2 P3 2%nat 1%nat).
  lia.
Defined.

(** ** Priority ceiling protocol *)

(** With ceiling 2 and priority 5 the lock is granted and the priority
    still reads 5 while the resource is held. *)
Lemma pcp_acquire_keeps_worse_priority :
  exists s2 : sim,
    pcp_acquire spec_acquire_lock P1 (pcp_scene 5 2) = Ok (0, s2)
    /\ owner <$> (resources s2 !! 0%nat) = Some (Some P1)
    /\ ceiling <$> (resources s2 !! 0%nat) = Some 2
    /\ priority <$> (procs s2 !! P1) = Some 5
    /\ priority <$> (procs s2 !! P1) <> Some 2.
Proof.
  eexists. split; [reflexivity|].
  split; [reflexivity|]. split; [reflexivity|]. split; [reflexivity|].
  discriminate.
Qed.

(** What the guard of [pcp_acquire] does for any lock primitives: when the
    lock attempt succeeds (leaving the process record alone), the priority
    of the process reads the ceiling if it was numerically below the ceiling
    and reads as before otherwise, in particular for every priority that is
    numerically at or above the ceiling; [orig_priority] is not written, and
    a following [pcp_release] makes the priority read [orig_priority]. *)
Lemma pcp_hold_priority
    (acquire_lock : nat -> sim -> result (Z * sim))
    (release_lock : nat -> sim -> result sim)
    (p : pid) (s s1 : sim) (pp : process) (l : resource) :
  procs s !! p = Some pp ->
  acquire_lock (lock pp) s = Ok (0, s1) ->
  procs s1 !! p = Some pp ->
  resources s1 !! lock pp = Some l ->
  exists s2 : sim,
    pcp_acquire acquire_lock p s = Ok (0, s2)
    /\ priority <$> (procs s2 !! p)
       = Some (if priority pp <? ceiling l then ceiling l else priority pp)
    /\ orig_priority <$> (procs s2 !! p) = Some (orig_priority pp)
    /\ forall s3 : sim,
         release_lock (lock pp) s2 = Ok s3 ->
         procs s3 !! p = procs s2 !! p ->
         exists s4 : sim,
           pcp_release release_lock p s2 = Ok (0, s4)
           /\ priority <$> (procs s4 !! p) = Some (orig_priority pp)
           /\ orig_priority <$> (procs s4 !! p) = Some (orig_priority pp).
Proof.
  intros Hp Hacq Hp1 Hl.
  unfold pcp_acquire, proc_at. rewrite Hp. simpl. rewrite Hacq. simpl.
  rewrite Hp1. simpl. rewrite Hl. simpl.
  destruct (priority pp <? ceiling l).
  - eexists. split; [reflexivity|].
    assert (Hp2 : procs (store_proc p (set_priority (ceiling l) pp) s1) !! p
                  = Some (set_priority (ceiling l) pp)).
    { simpl. apply lookup_insert_eq. }
    rewrite Hp2. split; [reflexivity|]. split; [reflexivity|].
    intros s3 Hrel Hp3. rewrite ?Hp2 in Hp3.
    unfold pcp_release, proc_at. rewrite Hp2. simpl. rewrite Hrel. simpl.
    rewrite Hp3. simpl. eexists. split; [reflexivity|].
    simpl. rewrite lookup_insert_eq. split; reflexivity.
  - exists s1. split; [reflexivity|].
    rewrite Hp1. split; [reflexivity|]. split; [reflexivity|].
    intros s3 Hrel Hp3. rewrite ?Hp1 in Hp3.
    unfold pcp_release, proc_at. rewrite Hp1. simpl. rewrite Hrel. simpl.
    rewrite Hp3. simpl. eexists. split; [reflexivity|].
    simpl. rewrite lookup_insert_eq. split; reflexivity.
Qed.

Lemma pcp_hold_priority_witness :
  exists s2 : sim,
    pcp_acquire spec_acquire_lock P1 (pcp_scene 2 5) = Ok (0, s2)
    /\ priority <$> (procs s2 !! P1) = Some (if 2 <? 5 then 5 else 2)
    /\ orig_priority <$> (procs s2 !! P1) = Some 2
    /\ forall s3 : sim,
         spec_release_lock 0%nat s2 = Ok s3 ->
         procs s3 !! P1 = procs s2 !! P1 ->
         exists s4 : sim,
           pcp_release spec_release_lock P1 s2 = Ok (0, s4)
           /\ priority <$> (procs s4 !! P1) = Some 2
           /\ orig_priority <$> (procs s4 !! P1) = Some 2.
Proof.
  apply (pcp_hold_priority spec_acquire_lock spec_release_lock P1
           (pcp_scene 2 5)
           (mkSim (procs (pcp_scene 2 5)) (Some P1) []
              [mkResource (Some P1) [] 5])
           (running (ready_process 4 4 2)) (mkResource (Some P1) [] 5));
    reflexivity.
Defined.

(** C1 where the source misses it.  With ceiling 2 and a process of
    priority 5 (the claim's example) the lock is granted, the guard
    [p->priority < p->lock->ceiling] is false, and the priority reads 5, not
    2, while the resource is held and 5 after the release.  The guard fires
    the other way round: a holder of priority 2 under ceiling 5, which
    [pcp_schedule] preferred to a ready process of priority 3, is set to 5
    by [pcp_acquire] and [pcp_schedule] then selects the other process. *)
Theorem pcp_acquire_guard_inverted :
  (exists s2 s4 : sim,
      pcp_acquire spec_acquire_lock P1 (pcp_scene 5 2) = Ok (0, s2)
      /\ owner <$> (resources s2 !! 0%nat) = Some (Some P1)
      /\ ceiling <$> (resources s2 !! 0%nat) = Some 2
      /\ priority <$> (procs s2 !! P1) = Some 5
      /\ pcp_release spec_release_lock P1 s2 = Ok (0, s4)
      /\ priority <$> (procs s4 !! P1) = Some 5)
  /\ (exists s2 : sim,
      pcp_schedule (pcp_contest 2 5) = Ok (Some P1, pcp_contest 2 5)
      /\ pcp_acquire spec_acquire_lock P1 (pcp_contest 2 5) = Ok (0, s2)
      /\ owner <$> (resources s2 !! 0%nat) = Some (Some P1)
      /\ priority <$> (procs s2 !! P1) = Some 5
      /\ priority <$> (procs s2 !! P2) = Some 3
      /\ pcp_schedule s2 = Ok (Some P2, s2)).
Proof.
  split.
  - do 2 eexists. split; [reflexivity|]. split; [reflexivity|].
    split; [reflexivity|]. split; [reflexivity|]. split; reflexivity.
  - eexists. split; [reflexivity|]. split; [reflexivity|].
    split; [reflexivity|]. split; [reflexivity|]. split; reflexivity.
Qed.

(** The same run evaluated: priority 2 under ceiling 5 reads 5 while the
    lock is held and 2 after the release. *)
Lemma pcp_acquire_release_run :
  exists s2 s4 : sim,
    pcp_acquire spec_acquire_lock P1 (pcp_scene 2 5) = Ok (0, s2)
    /\ priority <$> (procs s2 !! P1) = Some 5
    /\ pcp_release spec_release_lock P1 s2 = Ok (0, s4)
    /\ priority <$> (procs s4 !! P1) = Some 2
    /\ owner <$> (resources s4 !! 0%nat) = Some None.
Proof.
  do 2 eexists. split; [reflexivity|]. split; [reflexivity|].
  split; [reflexivity|]. split; reflexivity.
Qed.

(** ** Priority inheritance protocol *)

(** Neither FCFS callback writes a priority. *)
Lemma fcfs_acquire_keeps_priorities (resource_id : Z) (s s' : sim)
    (b : bool) (p : pid) :
  fcfs_acquire resource_id s = Ok (b, s') ->
  priority <$> (procs s' !! p) = priority <$> (procs s !! p).
Proof.
  unfold fcfs_acquire. intros H.
  destruct (resource_at resource_id s) as [r| | |]; simpl in H;
    try discriminate.
  destruct (owner r).
  - destruct (current s) as [c|]; simpl in H; [|discriminate].
    unfold proc_at in H.
    destruct (procs s !! c) as [pc|] eqn:Ec; simpl in H; [|discriminate].
    destruct (bool_decide (c ∈ queued s)); [discriminate|].
    injection H as <- <-. simpl.
    destruct (decide (p = c)) as [->|Hne].
    + rewrite lookup_insert_eq, Ec. reflexivity.
    + rewrite lookup_insert_ne by congruence. reflexivity.
  - injection H as <- <-. reflexivity.
Qed.

Lemma fcfs_release_keeps_priorities (resource_id : Z) (s s' : sim)
    (p : pid) :
  fcfs_release resource_id s = Ok s' ->
  priority <$> (procs s' !! p) = priority <$> (procs s !! p).
Proof.
  unfold fcfs_release. intros H.
  destruct (resource_at resource_id s) as [r| | |]; simpl in H;
    try discriminate.
  destruct (bool_decide (owner r = current s)); simpl in H; [|discriminate].
  destruct (waitqueue r) as [|waiter rest].
  - injection H as <-. reflexivity.
  - unfold proc_at in H.
    destruct (procs s !! waiter) as [pw|] eqn:Ew; simpl in H;
      [|discriminate].
    destruct (bool_decide (status pw = PROCESS_WAIT)); simpl in H;
      [|discriminate].
    injection H as <-. simpl.
    destruct (decide (p = waiter)) as [->|Hne].
    + rewrite lookup_insert_eq, Ew. reflexivity.
    + rewrite lookup_insert_ne by congruence. reflexivity.
Qed.


(** C9 on the source: the [pip_scheduler] descriptor has a name and no
    callbacks, so acquiring, releasing and scheduling under it all call
    through a NULL pointer; and the one blocking path of the file,
    [fcfs_acquire], leaves the holder's priority alone: [P1] (priority 8)
    holds resource 0, [P2] (priority 1) blocks on it, and [P1] still has
    priority 8. *)
Theorem pip_scheduler_has_no_callbacks :
  (forall (resource_id : Z) (s : sim),
      call_acquire pip_scheduler resource_id s = Fault
      /\ call_release pip_scheduler resource_id s = Fault
      /\ call_schedule pip_scheduler s = Fault)
  /\ exists s' : sim,
      fcfs_acquire 0 contended = Ok (false, s')
      /\ owner <$> (resources s' !! 0%nat) = Some (Some P1)
      /\ waitqueue <$> (resources s' !! 0%nat) = Some [P2]
      /\ priority <$> (procs contended !! P2) = Some 1
      /\ priority <$> (procs s' !! P1) = Some 8.
Proof.
  split.
  - intros resource_id s. split; [reflexivity | split; reflexivity].
  - eexists. split; [reflexivity|].
    split; [reflexivity|]. split; [reflexivity|]. split; reflexivity.
Qed.

(** ** Further properties of the scanning policies *)

Lemma all_liveb_live (m : gmap nat process) (q : list pid) :
  all_liveb m q = true -> all_live m q.
Proof.
  unfold all_liveb, all_live. intros H p Hp.
  rewrite forallb_forall in H. apply list_elem_of_In in Hp.
  specialize (H p Hp). destruct (m !! p); [eauto | discriminate].
Qed.

Lemma sjf_schedule_selects_witness :
  exists (i : nat) (p : pid) (pr : process),
    sjf_schedule three_ready = Ok (Some p, three_ready)
    /\ first_least expected_exec_time (procs three_ready)
         (runqueue three_ready) i p pr.
Proof.
  apply (sjf_schedule_selects three_ready).
  - apply all_liveb_live. reflexivity.
  - exists P1, (ready_process 4 4 8).
    split; [apply (bool_decide_unpack _); vm_compute; reflexivity|].
    split; [reflexivity | reflexivity].
Defined.

Lemma srtf_schedule_selects_witness :
  exists (i : nat) (p : pid) (pr : process),
    srtf_schedule srtf_preempting = Ok (Some p, srtf_preempting)
    /\ first_least remaining_exec_time (procs srtf_preempting)
         (runqueue srtf_preempting) i p pr.
Proof.
  apply (srtf_schedule_selects srtf_preempting).
  - apply all_liveb_live. reflexivity.
  - exists P2, (ready_process 3 3 1).
    split; [apply (bool_decide_unpack _); vm_compute; reflexivity|].
    split; [reflexivity | reflexivity].
Defined.

(** X3: With every queue entry alive, [sjf_schedule] and [srtf_schedule] return
    NULL exactly when no ready process has its time below [ULONG_MAX]: on
    the empty queue and on queues of [ULONG_MAX] entries only. *)
Theorem shortest_scans_idle_iff (s : sim) :
  all_live (procs s) (runqueue s) ->
  (sjf_schedule s = Ok (None, s) <->
     forall (p : pid) (pr : process),
       p ∈ runqueue s -> procs s !! p = Some pr ->
       ULONG_MAX <= expected_exec_time pr)
  /\ (srtf_schedule s = Ok (None, s) <->
     forall (p : pid) (pr : process),
       p ∈ runqueue s -> procs s !! p = Some pr ->
       ULONG_MAX <= remaining_exec_time pr).
Proof.
  intros Hlive. unfold sjf_schedule, srtf_schedule.
  rewrite sjf_scan_min_scan, srtf_scan_min_scan.
  split.
  - destruct (min_scan_outcome expected_exec_time _ _ None ULONG_MAX Hlive)
      as [[Hres Hall] | (i & p & pr & Hres & Hfl & Hlt)]; rewrite Hres; simpl.
    + split; [intros _; exact Hall | reflexivity].
    + split; [discriminate|]. intros Hall.
      destruct Hfl as (Hi & Hp & _).
      apply list_elem_of_lookup_2 in Hi. specialize (Hall p pr Hi Hp). lia.
  - destruct (min_scan_outcome remaining_exec_time _ _ None ULONG_MAX Hlive)
      as [[Hres Hall] | (i & p & pr & Hres & Hfl & Hlt)]; rewrite Hres; simpl.
    + split; [intros _; exact Hall | reflexivity].
    + split; [discriminate|]. intros Hall.
      destruct Hfl as (Hi & Hp & _).
      apply list_elem_of_lookup_2 in Hi. specialize (Hall p pr Hi Hp). lia.
Qed.

Lemma shortest_scans_idle_iff_witness :
  (sjf_schedule one_long = Ok (None, one_long) <->
     forall (p : pid) (pr : process),
       p ∈ runqueue one_long -> procs one_long !! p = Some pr ->
       ULONG_MAX <= expected_exec_time pr)
  /\ (srtf_schedule one_long = Ok (None, one_long) <->
     forall (p : pid) (pr : process),
       p ∈ runqueue one_long -> procs one_long !! p = Some pr ->
       ULONG_MAX <= remaining_exec_time pr).
Proof.
  apply (shortest_scans_idle_iff one_long).
  apply all_liveb_live. reflexivity.
Defined.

(** Once the scan holds a live candidate [h], [prio_scan] is the minimum
    scan over [priority] bounded by the priority of [h]. *)
Lemma prio_scan_min_scan (m : gmap nat process) (q : list pid)
    (h : pid) (ph : process) :
  m !! h = Some ph ->
  prio_scan m q (Some h) = min_scan priority m q (Some h) (priority ph).
Proof.
  revert h ph. induction q as [|curr rest IH]; intros h ph Hh; simpl.
  - reflexivity.
  - destruct (m !! curr) as [pc|] eqn:Ec; simpl; [|reflexivity].
    rewrite Hh. simpl.
    destruct (priority pc <? priority ph); [apply IH; exact Ec | apply IH; exact Hh].
Qed.

(** X4: The priority scan ([pcp_schedule], and the function the source names
    [prio_scheduler]) returns NULL on an empty queue only; on a non-empty
    queue of live entries it returns the first process with the numerically
    least [priority] and leaves the state as it is. *)
Theorem pcp_schedule_selects (s : sim) :
  all_live (procs s) (runqueue s) ->
  (runqueue s = [] -> pcp_schedule s = Ok (None, s))
  /\ (runqueue s <> [] ->
      exists (i : nat) (p : pid) (pr : process),
        pcp_schedule s = Ok (Some p, s)
        /\ first_least priority (procs s) (runqueue s) i p pr).
Proof.
  intros Hlive. unfold pcp_schedule. split.
  - intros ->. reflexivity.
  - intros Hne. destruct (runqueue s) as [|c rest] eqn:Eq; [congruence|].
    destruct (Hlive c) as [pc Hpc]; [now left|].
    assert (Hrest : all_live (procs s) rest).
    { intros p Hp. apply Hlive. now right. }
    simpl. rewrite (prio_scan_min_scan _ _ _ _ Hpc).
    destruct (min_scan_outcome priority (procs s) rest (Some c)
                (priority pc) Hrest)
      as [[Hres Hall] | (i & p & pr & Hres & Hfl & Hlt)]; rewrite Hres; simpl.
    + exists 0%nat, c, pc. split; [reflexivity|].
      split; [reflexivity|]. split; [exact Hpc|]. split.
      * intros [|j] p' pr' Hj Hp'; simpl in Hj.
        -- injection Hj as <-. rewrite Hpc in Hp'. injection Hp' as <-. lia.
        -- apply (Hall p' pr'); [|exact Hp'].
           eapply list_elem_of_lookup_2; eauto.
      * intros j p' pr' Hj. lia.
    + destruct Hfl as (Hi & Hp & Hmin & Hfirst).
      exists (S i), p, pr. split; [reflexivity|].
      split; [exact Hi|]. split; [exact Hp|]. split.
      * intros [|j] p' pr' Hj Hp'; simpl in Hj.
        -- injection Hj as <-. rewrite Hpc in Hp'. injection Hp' as <-. lia.
        -- eapply Hmin; eauto.
      * intros [|j] p' pr' Hlt' Hj Hp'; simpl in Hj.
        -- injection Hj as <-. rewrite Hpc in Hp'. injection Hp' as <-. lia.
        -- eapply (Hfirst j); eauto. lia.
Qed.

Lemma pcp_schedule_selects_witness :
  (runqueue three_ready = [] -> pcp_schedule three_ready = Ok (None, three_ready))
  /\ (runqueue three_ready <> [] ->
      exists (i : nat) (p : pid) (pr : process),
        pcp_schedule three_ready = Ok (Some p, three_ready)
        /\ first_least priority (procs three_ready)
             (runqueue three_ready) i p pr).
Proof.
  apply (pcp_schedule_selects three_ready).
  apply all_liveb_live. reflexivity.
Defined.

(** ** A full round of round-robin *)

Lemma rr_after_ticks (m : gmap nat process) (cur : option pid)
    (rs : list resource) (k : nat) (q : list pid) :
  (k <= length q)%nat ->
  after_ticks rr_schedule k (mkSim m cur q rs)
  = Ok (mkSim m cur (drop k q ++ take k q) rs).
Proof.
  revert q. induction k as [|k IH]; intros q Hk.
  - simpl. now rewrite app_nil_r.
  - destruct q as [|h t]; simpl in Hk; [lia|].
    change (after_ticks rr_schedule (S k) (mkSim m cur (h :: t) rs))
      with (after_ticks rr_schedule k (mkSim m cur (t ++ [h]) rs)).
    rewrite IH by (rewrite length_app; simpl; lia).
    rewrite drop_app_le, take_app_le by lia.
    simpl. now rewrite <- app_assoc.
Qed.

Lemma rr_selections (m : gmap nat process) (cur : option pid)
    (rs : list resource) (k : nat) (q : list pid) :
  (k <= length q)%nat ->
  selections rr_schedule k (mkSim m cur q rs)
  = Ok (Some <$> take k (drop 1 q ++ take 1 q)).
Proof.
  revert q. induction k as [|k IH]; intros q Hk.
  - reflexivity.
  - destruct q as [|h t]; simpl in Hk; [lia|].
    change (selections rr_schedule (S k) (mkSim m cur (h :: t) rs))
      with (l ← selections rr_schedule k (mkSim m cur (t ++ [h]) rs);
            Ok (head (t ++ [h]) :: l)).
    rewrite IH by (rewrite length_app; simpl; lia).
    simpl. destruct t as [|a t'].
    + assert (k = 0)%nat as -> by (simpl in Hk; lia). reflexivity.
    + simpl in *.
      rewrite (take_app_le (t' ++ [h]) _ k)
        by (rewrite length_app; simpl; lia).
      reflexivity.
Qed.

(** X5: In as many ticks as the ready queue [h :: t] has entries, [rr_schedule]
    selects every queued process exactly once, in the order [t] then [h],
    and the ready queue is back in its initial order; nothing else in the
    state changes. *)
Theorem rr_schedule_full_round (m : gmap nat process) (cur : option pid)
    (rs : list resource) (h : pid) (t : list pid) :
  selections rr_schedule (length (h :: t)) (mkSim m cur (h :: t) rs)
  = Ok (Some <$> (t ++ [h]))
  /\ after_ticks rr_schedule (length (h :: t)) (mkSim m cur (h :: t) rs)
     = Ok (mkSim m cur (h :: t) rs).
Proof.
  split.
  - rewrite rr_selections by lia.
    rewrite take_ge; [reflexivity|].
    simpl. rewrite drop_0, length_app. simpl. lia.
  - rewrite rr_after_ticks by lia.
    now rewrite drop_all, firstn_all.
Qed.

(** ** Further properties of the FCFS callbacks *)

(** The two ways [fcfs_acquire] returns. *)
Lemma fcfs_acquire_inv (resource_id : Z) (s s' : sim) (b : bool) :
  fcfs_acquire resource_id s = Ok (b, s') ->
  exists r : resource,
    0 <= resource_id /\ resources s !! Z.to_nat resource_id = Some r
    /\ ((owner r = None /\ b = true
         /\ s' = store_resource resource_id (set_owner (current s) r) s)
        \/ (exists (o c : pid) (pc : process),
              owner r = Some o /\ current s = Some c
              /\ procs s !! c = Some pc /\ b = false
              /\ (c ∉ queued s)
              /\ s' = store_resource resource_id
                        (set_waitqueue (waitqueue r ++ [c]) r)
                        (store_proc c (set_status PROCESS_WAIT pc) s))).
Proof.
  unfold fcfs_acquire. intros H.
  destruct (resource_at resource_id s) as [r| | |] eqn:Er; simpl in H;
    try discriminate.
  apply resource_at_inv in Er as [Hge Hr].
  exists r. split; [exact Hge|]. split; [exact Hr|].
  destruct (owner r) as [o|] eqn:Eo.
  - right. destruct (current s) as [c|] eqn:Ec; simpl in H; [|discriminate].
    unfold proc_at in H.
    destruct (procs s !! c) as [pc|] eqn:Epc; simpl in H; [|discriminate].
    destruct (bool_decide (c ∈ queued s)) eqn:Eq; [discriminate|].
    apply bool_decide_eq_false in Eq.
    injection H as <- <-. exists o, c, pc. auto 10.
  - left. injection H as <- <-. auto.
Qed.

(** The two ways [fcfs_release] returns. *)
Lemma fcfs_release_inv (resource_id : Z) (s s' : sim) :
  fcfs_release resource_id s = Ok s' ->
  exists r : resource,
    0 <= resource_id /\ resources s !! Z.to_nat resource_id = Some r
    /\ owner r = current s
    /\ ((waitqueue r = []
         /\ s' = store_resource resource_id (set_owner None r) s)
        \/ (exists (w : pid) (rest : list pid) (pw : process),
              waitqueue r = w :: rest /\ procs s !! w = Some pw
              /\ status pw = PROCESS_WAIT
              /\ s' = set_readyqueue (readyqueue s ++ [w])
                        (store_proc w (set_status PROCESS_READY pw)
                           (store_resource resource_id
                              (set_waitqueue rest (set_owner None r)) s)))).
Proof.
  unfold fcfs_release. intros H.
  destruct (resource_at resource_id s) as [r| | |] eqn:Er; simpl in H;
    try discriminate.
  apply resource_at_inv in Er as [Hge Hr].
  exists r. split; [exact Hge|]. split; [exact Hr|].
  destruct (bool_decide (owner r = current s)) eqn:Eo; simpl in H;
    [|discriminate].
  apply bool_decide_eq_true in Eo. split; [exact Eo|].
  destruct (waitqueue r) as [|w rest] eqn:Ew.
  - left. injection H as <-. auto.
  - right. unfold proc_at in H.
    destruct (procs s !! w) as [pw|] eqn:Epw; simpl in H; [|discriminate].
    destruct (bool_decide (status pw = PROCESS_WAIT)) eqn:Est; simpl in H;
      [|discriminate].
    apply bool_decide_eq_true in Est.
    injection H as <-. exists w, rest, pw. auto.
Qed.

(** X6: Taking a free resource with nobody waiting and releasing it again gives
    back the very state the process started from. *)
Theorem fcfs_acquire_release_round_trip (resource_id : Z) (s : sim)
    (r : resource) (c : pid) :
  0 <= resource_id ->
  resources s !! Z.to_nat resource_id = Some r ->
  owner r = None -> waitqueue r = [] ->
  current s = Some c ->
  exists s1 : sim,
    fcfs_acquire resource_id s = Ok (true, s1)
    /\ owner <$> (resources s1 !! Z.to_nat resource_id) = Some (Some c)
    /\ fcfs_release resource_id s1 = Ok s.
Proof.
  intros Hge Hr Ho Hq Hc.
  destruct s as [m cur rq rs]. destruct r as [o q ceil].
  simpl in *. subst o q cur.
  assert (Hlt : (Z.to_nat resource_id < length rs)%nat)
    by (eapply lookup_lt_Some; eauto).
  eexists. unfold fcfs_acquire, resource_at. simpl.
  destruct (decide (0 <= resource_id)); [|lia].
  rewrite Hr. simpl.
  split; [reflexivity|].
  split; [simpl; now rewrite list_lookup_insert_eq|].
  unfold fcfs_release, resource_at, store_resource. simpl.
  destruct (decide (0 <= resource_id)); [|lia].
  rewrite list_lookup_insert_eq by exact Hlt. simpl.
  rewrite bool_decide_eq_true_2 by reflexivity. simpl.
  unfold store_resource, set_resources, set_owner. simpl.
  rewrite list_insert_insert_eq, list_insert_id by exact Hr. reflexivity.
Qed.

Lemma fcfs_acquire_release_round_trip_witness :
  exists s1 : sim,
    fcfs_acquire 0 free_resource = Ok (true, s1)
    /\ owner <$> (resources s1 !! Z.to_nat 0) = Some (Some P1)
    /\ fcfs_release 0 s1 = Ok free_resource.
Proof.
  apply (fcfs_acquire_release_round_trip 0 free_resource
           (mkResource None [] 2) P1);
    [lia | reflexivity | reflexivity | reflexivity | reflexivity].
Defined.

(** X7: A release leaves the resource without an owner even when it wakes a
    waiter, so the releasing process, still [current], gets the resource back
    by asking again at once while the woken process sits in the ready
    queue. *)
Theorem fcfs_release_then_acquire (resource_id : Z) (s s1 : sim) :
  fcfs_release resource_id s = Ok s1 ->
  exists s2 : sim,
    fcfs_acquire resource_id s1 = Ok (true, s2)
    /\ owner <$> (resources s2 !! Z.to_nat resource_id) = Some (current s)
    /\ readyqueue s2 = readyqueue s1
    /\ procs s2 = procs s1.
Proof.
  intros H.
  destruct (fcfs_release_inv _ _ _ H)
    as (r & Hge & Hr & Ho
        & [(Hq & ->) | (w & rest & pw & Hq & Hpw & Hst & ->)]);
    assert (Hlt : (Z.to_nat resource_id < length (resources s))%nat)
      by (eapply lookup_lt_Some; eauto);
    eexists; unfold fcfs_acquire, resource_at; simpl;
    (destruct (decide (0 <= resource_id)); [|lia]);
    rewrite list_lookup_insert_eq by exact Hlt; simpl;
    (split; [reflexivity|]); simpl;
    rewrite list_lookup_insert_eq by (now rewrite length_insert);
    auto.
Qed.

Lemma fcfs_release_then_acquire_witness :
  exists s2 : sim,
    fcfs_acquire 0
      (mkSim (<[P2 := set_status PROCESS_READY
                        (set_status PROCESS_WAIT (ready_process 3 3 1))]>
                (procs held))
         (Some P1) [P2]
         [mkResource None [P3] 2; mkResource None [] 7])
    = Ok (true, s2)
    /\ owner <$> (resources s2 !! Z.to_nat 0) = Some (current held)
    /\ readyqueue s2 = [P2]
    /\ procs s2
       = <[P2 := set_status PROCESS_READY
                   (set_status PROCESS_WAIT (ready_process 3 3 1))]>
           (procs held).
Proof.
  apply (fcfs_release_then_acquire 0 held). reflexivity.
Defined.

(** X8: called by a [current] that is in no queue, [fcfs_acquire] loses no
    queue entry: granting leaves all queues as they are, blocking adds
    [current] and nothing else, and the ready queue is never touched. *)
Theorem fcfs_acquire_conserves_queued (resource_id : Z) (s s' : sim)
    (b : bool) :
  (forall c : pid, current s = Some c -> c ∉ queued s) ->
  fcfs_acquire resource_id s = Ok (b, s') ->
  readyqueue s' = readyqueue s
  /\ (b = true -> queued s' = queued s)
  /\ (b = false ->
      exists c : pid, current s = Some c /\ queued s' ≡ₚ c :: queued s).
Proof.
  intros _ H.
  destruct (fcfs_acquire_inv _ _ _ _ H)
    as (r & Hge & Hr & [(Ho & -> & ->) | (o & c & pc & Ho & Hc & Hpc & -> & Hout & ->)]);
    destruct (waitqueues_split _ _ _ Hr) as (pre & post & Hq & Hq');
    (split; [reflexivity|]); unfold queued; simpl; rewrite Hq, Hq'; simpl.
  - split; [reflexivity | discriminate].
  - split; [discriminate|]. intros _. exists c. split; [exact Hc|].
    solve_Permutation.
Qed.

Lemma fcfs_acquire_conserves_queued_witness :
  readyqueue
    (mkSim (<[P2 := set_status PROCESS_WAIT (running (ready_process 3 3 1))]>
              (procs contended))
       (Some P2) [P3]
       [mkResource (Some P1) [P2] 2; mkResource None [] 7])
  = readyqueue contended
  /\ (false = true ->
      queued
        (mkSim (<[P2 := set_status PROCESS_WAIT
                          (running (ready_process 3 3 1))]>
                  (procs contended))
           (Some P2) [P3]
           [mkResource (Some P1) [P2] 2; mkResource None [] 7])
      = queued contended)
  /\ (false = false ->
      exists c : pid,
        current contended = Some c
        /\ queued
             (mkSim (<[P2 := set_status PROCESS_WAIT
                               (running (ready_process 3 3 1))]>
                       (procs contended))
                (Some P2) [P3]
                [mkResource (Some P1) [P2] 2; mkResource None [] 7])
           ≡ₚ c :: queued contended).
Proof.
  apply (fcfs_acquire_conserves_queued 0 contended _ false).
  - intros c [= <-]. apply (bool_decide_unpack _). vm_compute. reflexivity.
  - reflexivity.
Defined.

(** X9: [fcfs_release] loses no queue entry either: the queues after the call
    hold the same processes as before, the woken one now at the end of the
    ready queue. *)
Theorem fcfs_release_conserves_queued (resource_id : Z) (s s' : sim) :
  fcfs_release resource_id s = Ok s' ->
  queued s' ≡ₚ queued s
  /\ (readyqueue s' = readyqueue s
      \/ exists w : pid, readyqueue s' = readyqueue s ++ [w]).
Proof.
  intros H.
  destruct (fcfs_release_inv _ _ _ H)
    as (r & Hge & Hr & Ho
        & [(Hw & ->) | (w & rest & pw & Hw & Hpw & Hst & ->)]);
    destruct (waitqueues_split _ _ _ Hr) as (pre & post & Hq & Hq');
    unfold queued; simpl; rewrite Hq, Hq'; simpl; rewrite Hw.
  - split; [reflexivity | left; reflexivity].
  - split; [solve_Permutation | right; eauto].
Qed.

Lemma fcfs_release_conserves_queued_witness :
  queued
    (mkSim (<[P2 := set_status PROCESS_READY
                      (set_status PROCESS_WAIT (ready_process 3 3 1))]>
              (procs held))
       (Some P1) [P2]
       [mkResource None [P3] 2; mkResource None [] 7])
  ≡ₚ queued held
  /\ ([P2] = readyqueue held
      \/ exists w : pid, [P2] = readyqueue held ++ [w]).
Proof.
  apply (fcfs_release_conserves_queued 0 held). reflexivity.
Defined.

Lemma in_waitqueue_in_join (rs : list resource) (i : nat) (r : resource)
    (p : pid) :
  rs !! i = Some r -> p ∈ waitqueue r -> p ∈ mjoin (waitqueue <$> rs).
Proof.
  intros Hr Hp. apply list_elem_of_join. exists (waitqueue r).
  split; [exact Hp|]. apply list_elem_of_fmap_2.
  eapply list_elem_of_lookup_2; eauto.
Qed.

(** X10: The state property the second assertion of [fcfs_release] relies on,
    every wait-queue entry being a process in [PROCESS_WAIT], is kept by
    [fcfs_acquire], and by [fcfs_release] when no process is queued
    twice. *)
Theorem fcfs_keeps_waiters_wait (resource_id : Z) (s s' : sim) :
  waiters_wait s ->
  (exists b : bool, fcfs_acquire resource_id s = Ok (b, s'))
  \/ (NoDup (queued s) /\ fcfs_release resource_id s = Ok s') ->
  waiters_wait s'.
Proof.
  intros HW [[b H] | [Hnd H]].
  - destruct (fcfs_acquire_inv _ _ _ _ H)
      as (r & Hge & Hr
          & [(Ho & -> & ->) | (o & c & pc & Ho & Hc & Hpc & -> & Hout & ->)]);
      intros i r0 p Hi Hp; simpl in *.
    + destruct (decide (i = Z.to_nat resource_id)) as [->|Hne].
      * rewrite list_lookup_insert_eq in Hi
          by (eapply lookup_lt_Some; eauto).
        injection Hi as <-. eapply HW; eauto.
      * rewrite list_lookup_insert_ne in Hi by congruence. eapply HW; eauto.
    + assert (Hold : p = c
                \/ exists pr, procs s !! p = Some pr
                              /\ status pr = PROCESS_WAIT).
      { destruct (decide (i = Z.to_nat resource_id)) as [->|Hne].
        - rewrite list_lookup_insert_eq in Hi
            by (eapply lookup_lt_Some; eauto).
          injection Hi as <-. simpl in Hp.
          apply elem_of_app in Hp as [Hp|Hp].
          + right. eapply HW; eauto.
          + left. now apply list_elem_of_singleton in Hp.
        - rewrite list_lookup_insert_ne in Hi by congruence.
          right. eapply HW; eauto. }
      destruct (decide (p = c)) as [->|Hne].
      * rewrite lookup_insert_eq. eexists. split; reflexivity.
      * rewrite lookup_insert_ne by congruence.
        destruct Hold as [?|Hold]; [congruence | exact Hold].
  - destruct (fcfs_release_inv _ _ _ H)
      as (r & Hge & Hr & Ho
          & [(Hw & ->) | (w & rest & pw & Hw & Hpw & Hst & ->)]);
      intros i r0 p Hi Hp; simpl in *.
    + destruct (decide (i = Z.to_nat resource_id)) as [->|Hne].
      * rewrite list_lookup_insert_eq in Hi
          by (eapply lookup_lt_Some; eauto).
        injection Hi as <-. eapply HW; eauto.
      * rewrite list_lookup_insert_ne in Hi by congruence. eapply HW; eauto.
    + assert (Hin : p ∈ mjoin (waitqueue <$>
                <[Z.to_nat resource_id :=
                    set_waitqueue rest (set_owner None r)]> (resources s)))
        by (eapply in_waitqueue_in_join; eauto).
      destruct (waitqueues_split _ _ _ Hr) as (pre & post & Hq & Hq').
      rewrite Hq' in Hin. simpl in Hin.
      unfold queued in Hnd. rewrite Hq, Hw in Hnd.
      assert (Hpw' : p <> w).
      { intros ->.
        apply NoDup_app in Hnd as (_ & _ & Hnd).
        apply NoDup_app in Hnd as (_ & Hpre & Hnd).
        simpl in Hnd. apply NoDup_cons in Hnd as [Hw' _].
        apply elem_of_app in Hin as [Hin|Hin].
        - apply (Hpre w Hin). now left.
        - exact (Hw' Hin). }
      rewrite lookup_insert_ne by congruence.
      destruct (decide (i = Z.to_nat resource_id)) as [->|Hne].
      * rewrite list_lookup_insert_eq in Hi
          by (eapply lookup_lt_Some; eauto).
        injection Hi as <-. simpl in Hp.
        eapply (HW _ r); eauto. rewrite Hw. now right.
      * rewrite list_lookup_insert_ne in Hi by congruence. eapply HW; eauto.
Qed.

Lemma held_waiters_wait : waiters_wait held.
Proof.
  intros i r p Hi Hp. destruct i as [|[|i]]; simpl in Hi; try discriminate;
    injection Hi as <-; simpl in Hp.
  - apply elem_of_cons in Hp as [->|Hp];
      [|apply list_elem_of_singleton in Hp as ->];
      eexists; split; reflexivity.
  - inversion Hp.
Qed.

Lemma fcfs_keeps_waiters_wait_witness :
  waiters_wait
    (mkSim (<[P2 := set_status PROCESS_READY
                      (set_status PROCESS_WAIT (ready_process 3 3 1))]>
              (procs held))
       (Some P1) [P2]
       [mkResource None [P3] 2; mkResource None [] 7]).
Proof.
  apply (fcfs_keeps_waiters_wait 0 held).
  - exact held_waiters_wait.
  - right. split; [|reflexivity].
    apply (bool_decide_unpack _). vm_compute. reflexivity.
Defined.

(** X11: In a state where every wait-queue entry is in [PROCESS_WAIT], a release
    by the owner stops at neither assertion: it returns, and the resource
    is without an owner afterwards. *)
Theorem fcfs_release_by_owner_returns (resource_id : Z) (s : sim)
    (r : resource) :
  waiters_wait s ->
  0 <= resource_id ->
  resources s !! Z.to_nat resource_id = Some r ->
  owner r = current s ->
  exists s' : sim,
    fcfs_release resource_id s = Ok s'
    /\ owner <$> (resources s' !! Z.to_nat resource_id) = Some None
    /\ current s' = current s.
Proof.
  intros HW Hge Hr Ho.
  assert (Hlt : (Z.to_nat resource_id < length (resources s))%nat)
    by (eapply lookup_lt_Some; eauto).
  unfold fcfs_release. rewrite (resource_at_ok _ _ _ Hge Hr). simpl.
  rewrite bool_decide_eq_true_2 by exact Ho. simpl.
  destruct (waitqueue r) as [|w rest] eqn:Ew.
  - eexists. split; [reflexivity|]. simpl.
    rewrite list_lookup_insert_eq by exact Hlt. auto.
  - destruct (HW _ r w Hr) as (pw & Hpw & Hst); [rewrite Ew; now left|].
    unfold proc_at. rewrite Hpw. simpl.
    rewrite bool_decide_eq_true_2 by exact Hst. simpl.
    eexists. split; [reflexivity|]. simpl.
    rewrite list_lookup_insert_eq by exact Hlt. auto.
Qed.

Lemma fcfs_release_by_owner_returns_witness :
  exists s' : sim,
    fcfs_release 0 held = Ok s'
    /\ owner <$> (resources s' !! Z.to_nat 0) = Some None
    /\ current s' = current held.
Proof.
  apply (fcfs_release_by_owner_returns 0 held
           (mkResource (Some P1) [P2; P3] 2));
    [exact held_waiters_wait | lia | reflexivity | reflexivity].
Defined.

(** X12: Neither FCFS callback writes any field of any process other than
    [status], and neither creates or deletes a process. *)
Theorem fcfs_callbacks_write_status_only (resource_id : Z) (s s' : sim) :
  (exists b : bool, fcfs_acquire resource_id s = Ok (b, s'))
  \/ fcfs_release resource_id s = Ok s' ->
  forall p : pid,
    but_status <$> (procs s' !! p) = but_status <$> (procs s !! p).
Proof.
  intros [[b H] | H] p.
  - destruct (fcfs_acquire_inv _ _ _ _ H)
      as (r & Hge & Hr
          & [(Ho & -> & ->) | (o & c & pc & Ho & Hc & Hpc & -> & Hout & ->)]);
      simpl; [reflexivity|].
    destruct (decide (p = c)) as [->|Hne].
    + rewrite lookup_insert_eq, Hpc. reflexivity.
    + rewrite lookup_insert_ne by congruence. reflexivity.
  - destruct (fcfs_release_inv _ _ _ H)
      as (r & Hge & Hr & Ho
          & [(Hw & ->) | (w & rest & pw & Hw & Hpw & Hst & ->)]);
      simpl; [reflexivity|].
    destruct (decide (p = w)) as [->|Hne].
    + rewrite lookup_insert_eq, Hpw. reflexivity.
    + rewrite lookup_insert_ne by congruence. reflexivity.
Qed.

Lemma fcfs_callbacks_write_status_only_witness :
  but_status <$>
    (procs
       (mkSim (<[P2 := set_status PROCESS_READY
                         (set_status PROCESS_WAIT (ready_process 3 3 1))]>
                 (procs held))
          (Some P1) [P2]
          [mkResource None [P3] 2; mkResource None [] 7]) !! P2)
  = but_status <$> (procs held !! P2).
Proof.
  apply (fcfs_callbacks_write_status_only 0 held). right. reflexivity.
Defined.

(** ** How the callbacks and the policies compose *)

(** X14: After [fcfs_acquire] has returned false, [fifo_schedule] never keeps the
    blocked [current], whatever its age: it hands out the head of the ready
    queue, or NULL when the ready queue is empty. *)
Theorem fifo_schedule_after_blocking (resource_id : Z) (s s' : sim) :
  fcfs_acquire resource_id s = Ok (false, s') ->
  fifo_schedule s' =
    Ok (match readyqueue s with
        | [] => (None, s')
        | h :: t => (Some h, set_readyqueue t s')
        end).
Proof.
  intros H.
  destruct (fcfs_acquire_inv _ _ _ _ H)
    as (r & Hge & Hr
        & [(Ho & Hb & _) | (o & c & pc & Ho & Hc & Hpc & _ & Hout & ->)]);
    [discriminate|].
  unfold fifo_schedule, proc_at, pick_next. simpl. rewrite Hc.
  rewrite lookup_insert_eq. simpl. reflexivity.
Qed.

Lemma fifo_schedule_after_blocking_witness :
  fifo_schedule
    (mkSim (<[P2 := set_status PROCESS_WAIT (running (ready_process 3 3 1))]>
              (procs contended))
       (Some P2) [P3]
       [mkResource (Some P1) [P2] 2; mkResource None [] 7])
  = Ok (match readyqueue contended with
        | [] =>
            (None,
             mkSim (<[P2 := set_status PROCESS_WAIT
                              (running (ready_process 3 3 1))]>
                      (procs contended))
               (Some P2) [P3]
               [mkResource (Some P1) [P2] 2; mkResource None [] 7])
        | h :: t =>
            (Some h,
             set_readyqueue t
               (mkSim (<[P2 := set_status PROCESS_WAIT
                                 (running (ready_process 3 3 1))]>
                         (procs contended))
                  (Some P2) [P3]
                  [mkResource (Some P1) [P2] 2; mkResource None [] 7]))
        end).
Proof.
  apply (fifo_schedule_after_blocking 0 contended). reflexivity.
Defined.

(** ** The return code of [pcp_acquire] *)


